(** * valibot-effect: the parsing adapter

    A shallow embedding of the four adapter functions of the repository
    ([parse], [parseAsync], [safeParse], [safeParseAsync]) in their two
    incarnations, [src/index.ts] and the module embedded after the test
    suite in [src/parse.test.ts], together with the part of the JavaScript
    world they live in: values, the evaluation monad (state plus thrown
    values), promises, the Effect runtime's constructors and its
    interpreter, and the Validator as an interface. *)

From Stdlib Require Import String Ascii ZArith List Bool Lia.
From Stdlib Require Import Decimal DecimalString.
Import ListNotations.
Open Scope string_scope.

Set Implicit Arguments.
Set Warnings "-register-all".
Set Warnings "-automation".

(** ** JavaScript values *)

(** What the adapter can see of a value at run time.  Static types are
    erased: a computation declared to succeed with the schema's output can
    in fact carry any [Value].  [VTagged] is an instance of a class made by
    [Data.TaggedError(tag)]: it has an identity [oid] given by [new], the
    discriminant [_tag] and its payload fields. *)
Inductive Value : Type :=
| VUndefined
| VNull
| VBool (b : bool)
| VNum (n : Z)
| VStr (s : string)
| VArr (items : list Value)
| VObj (fields : list (string * Value))
| VTagged (oid : nat) (_tag : string) (fields : list (string * Value)).

(** Property read [o.k] on an object; [undefined] when absent. *)
Fixpoint lookup_field (k : string) (fields : list (string * Value)) : Value :=
  match fields with
  | [] => VUndefined
  | (k', x) :: rest => if String.eqb k k' then x else lookup_field k rest
  end.

Definition get_field (k : string) (x : Value) : Value :=
  match x with
  | VObj fields => lookup_field k fields
  | VTagged _ tag fields =>
      if String.eqb k "_tag" then VStr tag else lookup_field k fields
  | _ => VUndefined
  end.

(** ** The evaluation monad *)

(** Outcome of evaluating a JavaScript expression: a value or a [throw]. *)
Inductive Completion (A : Type) : Type :=
| Normal (a : A)
| Throw (e : Value).
Arguments Throw {A} e.

(** A settled or unsettled promise, as seen by whoever awaits it. *)
Inductive Promise (A : Type) : Type :=
| Fulfilled (a : A)
| Rejected (reason : Value)
| Pending.
Arguments Rejected {A} reason.
Arguments Pending {A}.

Definition promise_map {A B : Type} (f : A -> B) (p : Promise A) : Promise B :=
  match p with
  | Fulfilled a => Fulfilled (f a)
  | Rejected r => Rejected r
  | Pending => Pending
  end.

(** The promise an [async function] returns for a body with the given
    completion. *)
Definition promise_of {A : Type} (c : Completion A) : Promise A :=
  match c with
  | Normal a => Fulfilled a
  | Throw e => Rejected e
  end.

Section Machine.

(** Everything the Validator's checks may read or change. *)
Variable World : Type.

(** The state an evaluation threads: the outside world and the allocator
    of object identities. *)
Record State : Type := mkState { world : World; next_oid : nat }.

Definition JS (A : Type) : Type := State -> Completion A * State.

Definition ret {A : Type} (a : A) : JS A := fun st => (Normal a, st).

Definition bind {A B : Type} (m : JS A) (k : A -> JS B) : JS B :=
  fun st =>
    match m st with
    | (Normal a, st') => k a st'
    | (Throw e, st') => (Throw e, st')
    end.

(** A call into code that only touches the outside world. *)
Definition call_out {A : Type} (f : World -> A * World) : JS A :=
  fun st =>
    let (a, w) := f (world st) in
    (Normal a, mkState w (next_oid st)).

(** A call into code that may throw. *)
Definition call_throwing {A : Type} (f : World -> Completion A * World) : JS A :=
  fun st =>
    let (c, w) := f (world st) in
    (c, mkState w (next_oid st)).

(** [new (Data.TaggedError(tag))(fields)]. *)
Definition new_tagged (tag : string) (fields : list (string * Value)) : JS Value :=
  fun st =>
    (Normal (VTagged (next_oid st) tag fields),
     mkState (world st) (S (next_oid st))).

(** ** The Effect runtime *)

(** A computation value.  Thunks are closures, evaluated in [JS] when the
    runtime calls them. *)
Inductive Effect : Type :=
| Succeed (a : Value)
| Fail (e : Value)
| Try (try : JS Value) (catch : Value -> JS Value)
| TryPromise (try : JS (Promise Value)) (catch : Value -> JS Value)
| Suspend (effect : JS Effect)
| FromPromise (evaluate : JS (Promise Value))
| FlatMap (self : Effect) (f : Value -> JS Effect).

(** How an executed computation ends: success, a failure in the typed
    error channel, a defect outside it, or never (a promise that never
    settles). *)
Inductive Exit : Type :=
| ExitSucceed (a : Value)
| ExitFail (e : Value)
| ExitDie (defect : Value)
| ExitNever.

(** The runtime calls the error mapper of [try]/[tryPromise]; a mapper
    that throws is a defect. *)
Definition fail_with (catch : Value -> JS Value) (e : Value) (st : State)
  : Exit * State :=
  match catch e st with
  | (Normal err, st') => (ExitFail err, st')
  | (Throw d, st') => (ExitDie d, st')
  end.

(** Modelled from the spec: the Effect Runtime is an external library,
    consumed through the constructors of section 6 (from a throwing
    thunk with an error mapper, from a promise-returning thunk with an
    error mapper, from a suspended thunk, and sequencing).  A thunk of
    [try] or [tryPromise] that throws, or a promise of [tryPromise] that
    rejects, goes through the error mapper into the error channel;
    [promise] has no mapper, so a rejection there is a defect, as is a
    throw from a suspended thunk or from the function of [flatMap]. *)
Fixpoint run (eff : Effect) (st : State) : Exit * State :=
  match eff with
  | Succeed a => (ExitSucceed a, st)
  | Fail e => (ExitFail e, st)
  | Try try catch =>
      match try st with
      | (Normal a, st1) => (ExitSucceed a, st1)
      | (Throw e, st1) => fail_with catch e st1
      end
  | TryPromise try catch =>
      match try st with
      | (Normal (Fulfilled a), st1) => (ExitSucceed a, st1)
      | (Normal (Rejected e), st1) => fail_with catch e st1
      | (Normal Pending, st1) => (ExitNever, st1)
      | (Throw e, st1) => fail_with catch e st1
      end
  | Suspend effect =>
      match effect st with
      | (Normal inner, st1) => run inner st1
      | (Throw d, st1) => (ExitDie d, st1)
      end
  | FromPromise evaluate =>
      match evaluate st with
      | (Normal (Fulfilled a), st1) => (ExitSucceed a, st1)
      | (Normal (Rejected e), st1) => (ExitDie e, st1)
      | (Normal Pending, st1) => (ExitNever, st1)
      | (Throw d, st1) => (ExitDie d, st1)
      end
  | FlatMap self f =>
      match run self st with
      | (ExitSucceed a, st1) =>
          match f a st1 with
          | (Normal next, st2) => run next st2
          | (Throw d, st2) => (ExitDie d, st2)
          end
      | other => other
      end
  end.

End Machine.

Arguments Succeed {World} a.
Arguments Fail {World} e.

Declare Scope js_scope.
Delimit Scope js_scope with js.
Notation "x <- m ;; k" := (bind m (fun x => k))
  (at level 61, m at next level, right associativity) : js_scope.
Open Scope js_scope.

(** The conditional operator's test: JavaScript truthiness. *)
Definition truthy (x : Value) : bool :=
  match x with
  | VUndefined | VNull => false
  | VBool b => b
  | VNum n => negb (Z.eqb n 0)
  | VStr s => negb (String.eqb s "")
  | VArr _ | VObj _ | VTagged _ _ _ => true
  end.

(** ** The Effect module's constructors, as the adapter calls them

    Each of them only builds a computation value: none calls the thunk it
    is given. *)
Section EffectModule.

Context {World : Type}.

(** Options object of [Effect.try] and [Effect.tryPromise]. *)
Record TryOptions (A : Type) : Type :=
  mkTryOptions { try : JS World A; catch : Value -> JS World Value }.

Definition Effect_try (options : TryOptions Value) : JS World (Effect World) :=
  ret (Try (try options) (catch options)).

Definition Effect_tryPromise (options : TryOptions (Promise Value))
  : JS World (Effect World) :=
  ret (TryPromise (try options) (catch options)).

Definition Effect_suspend (effect : JS World (Effect World))
  : JS World (Effect World) :=
  ret (Suspend effect).

Definition Effect_promise (evaluate : JS World (Promise Value))
  : JS World (Effect World) :=
  ret (FromPromise evaluate).

Definition Effect_flatMap (self : Effect World)
    (f : Value -> JS World (Effect World)) : JS World (Effect World) :=
  ret (FlatMap self f).

Definition Effect_succeed (value : Value) : JS World (Effect World) :=
  ret (Succeed value).

Definition Effect_fail (error : Value) : JS World (Effect World) :=
  ret (Fail error).

(** The caller builds a computation and hands it to the runtime. *)
Definition execute (build : JS World (Effect World)) (st : State World)
  : Completion Exit * State World :=
  match build st with
  | (Normal eff, st1) => let (x, st2) := run eff st1 in (Normal x, st2)
  | (Throw e, st1) => (Throw e, st1)
  end.

End EffectModule.

(** ** The Validator *)

(** Result record of the non-throwing entry points. *)
Record SafeParseResult : Type := mkResult {
  typed : bool;
  success : bool;
  output : Value;
  issues : Value
}.

(** The record as the JavaScript object the adapter receives. *)
Definition result_value (r : SafeParseResult) : Value :=
  VObj [("typed", VBool (typed r));
        ("success", VBool (success r));
        ("output", output r);
        ("issues", issues r)].

(** The Validator is an external library, so it is a parameter: the five
    entry points the adapter consumes (section 6 of the spec), each free to
    read and change the world.  [Schema] is a synchronous schema,
    [SchemaAsync] an asynchronous one; the asynchronous entry points take
    either.  An [async] entry point never throws at the call: it returns a
    promise. *)
Record Validator (World : Type) : Type := mkValidator {
  Schema : Type;
  SchemaAsync : Type;
  Config : Type;
  v_parse : Schema -> Value -> option Config -> World -> Completion Value * World;
  v_parseAsync : Schema + SchemaAsync -> Value -> option Config ->
                 World -> Promise Value * World;
  v_safeParse : Schema -> Value -> option Config ->
                World -> Completion SafeParseResult * World;
  v_safeParseAsync : Schema + SchemaAsync -> Value -> option Config ->
                     World -> Promise SafeParseResult * World;
  v_isValiError : Value -> bool
}.

(** A call of a function returning a result record: the caller holds the
    object. *)
Definition as_object {World : Type}
    (f : World -> Completion SafeParseResult * World)
  : World -> Completion Value * World :=
  fun w =>
    match f w with
    | (Normal r, w') => (Normal (result_value r), w')
    | (Throw e, w') => (Throw e, w')
    end.

Definition as_object_promise {World : Type}
    (f : World -> Promise SafeParseResult * World)
  : World -> Promise Value * World :=
  fun w => let (p, w') := f w in (promise_map result_value p, w').

(** ** src/index.ts *)
Module Index.
Section Adapter.

Context {World : Type} (v : Validator World).

(** [class ValiError extends Data.TaggedError("ValiError")<{ cause }>]:
    the constructor call [new ValiError({ cause })]. *)
Definition new_ValiError (cause : Value) : JS World Value :=
  new_tagged "ValiError" [("cause", cause)].

Definition parse (schema : Schema v) (input : Value)
    (config : option (Config v)) : JS World (Effect World) :=
  Effect_try {|
    try := call_throwing (v_parse v schema input config);
    catch := fun cause =>
      new_ValiError (if v_isValiError v cause then cause else cause)
  |}.

Definition parseAsync (schema : Schema v + SchemaAsync v) (input : Value)
    (config : option (Config v)) : JS World (Effect World) :=
  Effect_tryPromise {|
    try := call_out (as_object_promise (v_safeParseAsync v schema input config));
    catch := fun cause =>
      new_ValiError (if v_isValiError v cause then cause else cause)
  |}.

Definition safeParse (schema : Schema v) (input : Value)
    (config : option (Config v)) : JS World (Effect World) :=
  Effect_suspend (
    result <- call_throwing (as_object (v_safeParse v schema input config)) ;;
    if truthy (get_field "success" result)
    then Effect_succeed (get_field "output" result)
    else Effect_fail (get_field "issues" result)).

Definition safeParseAsync (schema : Schema v + SchemaAsync v) (input : Value)
    (config : option (Config v)) : JS World (Effect World) :=
  self <- Effect_promise
            (call_out (as_object_promise (v_safeParseAsync v schema input config))) ;;
  Effect_flatMap self (fun result =>
    if truthy (get_field "success" result)
    then Effect_succeed (get_field "output" result)
    else Effect_fail (get_field "issues" result)).

End Adapter.
End Index.

(** ** The module embedded after the test suite in src/parse.test.ts *)
Module ParseTs.
Section Adapter.

Context {World : Type} (v : Validator World).

Definition new_ValiError (cause : Value) : JS World Value :=
  new_tagged "ValiError" [("cause", cause)].

Definition parse (schema : Schema v) (input : Value)
    (config : option (Config v)) : JS World (Effect World) :=
  Effect_try {|
    try := call_throwing (v_parse v schema input config);
    catch := fun cause =>
      new_ValiError (if v_isValiError v cause then cause else cause)
  |}.

Definition parseAsync (schema : Schema v + SchemaAsync v) (input : Value)
    (config : option (Config v)) : JS World (Effect World) :=
  Effect_tryPromise {|
    try := call_out (v_parseAsync v schema input config);
    catch := fun cause =>
      new_ValiError (if v_isValiError v cause then cause else cause)
  |}.

Definition safeParse (schema : Schema v) (input : Value)
    (config : option (Config v)) : JS World (Effect World) :=
  Effect_suspend (
    result <- call_throwing (as_object (v_safeParse v schema input config)) ;;
    if truthy (get_field "success" result)
    then Effect_succeed (get_field "output" result)
    else Effect_fail (get_field "issues" result)).

Definition safeParseAsync (schema : Schema v + SchemaAsync v) (input : Value)
    (config : option (Config v)) : JS World (Effect World) :=
  self <- Effect_promise
            (call_out (as_object_promise (v_safeParseAsync v schema input config))) ;;
  Effect_flatMap self (fun result =>
    if truthy (get_field "success" result)
    then Effect_succeed (get_field "output" result)
    else Effect_fail (get_field "issues" result)).

End Adapter.
End ParseTs.

(** ** A validator to run the adapter on *)

(** Modelled from the spec: the external Validator, on the schema of the
    test suite ("non-empty string, must parse as a decimal number,
    transformed to Number, must be within [0, 100]", scenarios 1 to 3 of
    the testable properties) and on a schema whose custom check throws
    (the "unexpected thrown value" of the error taxonomy).  Numbers are
    integers here, so the decimal literals it accepts are the integer ones.
    Its world counts the validation runs. *)
Module Fixture.

Inductive schema : Type :=
| percent
| check_throws (defect : Value).

Inductive schema_async : Type :=
| percent_async
| check_throws_async (defect : Value)
| check_stalls.

Record config : Type := mkConfig {
  abortEarly : option bool;
  abortPipeEarly : option bool;
  lang : option string
}.

Definition World : Type := nat.

Definition opt_value {A : Type} (f : A -> Value) (o : option A) : Value :=
  match o with Some a => f a | None => VUndefined end.

Definition or_null {A : Type} (f : A -> Value) (o : option A) : Value :=
  match o with Some a => f a | None => VNull end.

Definition config_field {A : Type} (f : A -> Value) (get : config -> option A)
    (c : option config) : Value :=
  match c with Some c' => opt_value f (get c') | None => VUndefined end.

Definition stops_early (c : option config) : bool :=
  match c with
  | Some c' =>
      match abortEarly c', abortPipeEarly c' with
      | Some true, _ | _, Some true => true
      | _, _ => false
      end
  | None => false
  end.

Definition string_of_Z (n : Z) : string := NilZero.string_of_int (Z.to_int n).

Definition double_quote : string := String (ascii_of_nat 34) EmptyString.

(** What an issue reports as received. *)
Definition stringify (x : Value) : string :=
  match x with
  | VUndefined => "undefined"
  | VNull => "null"
  | VBool true => "true"
  | VBool false => "false"
  | VNum n => string_of_Z n
  | VStr s => double_quote ++ s ++ double_quote
  | VArr _ => "Array"
  | VObj _ | VTagged _ _ _ => "Object"
  end.

Definition issue (c : option config) (kind type label : string)
    (input : Value) (expected : option string) (received : string)
    (requirement : Value) : Value :=
  VObj [("kind", VStr kind);
        ("type", VStr type);
        ("input", input);
        ("expected", or_null VStr expected);
        ("received", VStr received);
        ("message",
          VStr ("Invalid " ++ label ++ ": " ++
                match expected with
                | Some e => "Expected " ++ e ++ " but received "
                | None => "Received "
                end ++ received));
        ("requirement", requirement);
        ("path", VUndefined);
        ("issues", VUndefined);
        ("lang", config_field VStr lang c);
        ("abortEarly", config_field VBool abortEarly c);
        ("abortPipeEarly", config_field VBool abortPipeEarly c)].

(** An optional sign followed by digits. *)
Definition decimal_literal (s : string) : option Z :=
  match s with
  | String "+" digits => option_map Z.of_uint (NilZero.uint_of_string digits)
  | String "-" digits =>
      option_map (fun u => Z.opp (Z.of_uint u)) (NilZero.uint_of_string digits)
  | _ => option_map Z.of_uint (NilZero.uint_of_string s)
  end.

(** The dataset a schema run leaves: whether the value has the output
    type, the value, and the issues found. *)
Record dataset : Type := mkDataset {
  ds_typed : bool;
  ds_value : Value;
  ds_issues : list Value
}.

Definition range_issues (c : option config) (n : Z) : list Value :=
  List.app
  (if (n <? 0)%Z
   then [issue c "validation" "min_value" "value" (VNum n) (Some ">=0")
           (string_of_Z n) (VNum 0)]
   else [])
  (if (100 <? n)%Z
   then [issue c "validation" "max_value" "value" (VNum n) (Some "<=100")
           (string_of_Z n) (VNum 100)]
   else []).

Definition run_percent (c : option config) (input : Value) : dataset :=
  match input with
  | VStr s =>
      let non_empty :=
        if String.eqb s ""
        then [issue c "validation" "non_empty" "length" input (Some "!0") "0"
                VUndefined]
        else [] in
      let decimal :=
        match decimal_literal s with
        | Some _ => []
        | None =>
            [issue c "validation" "decimal" "decimal" input None
               (stringify input) (VStr "/^[+-]?(?:\d*\.)?\d+$/u")]
        end in
      let before_transform :=
        match non_empty with
        | _ :: _ => if stops_early c then non_empty else (non_empty ++ decimal)%list
        | [] => decimal
        end in
      match before_transform, decimal_literal s with
      | [], Some n => mkDataset true (VNum n) (range_issues c n)
      | found, _ => mkDataset false input found
      end
  | _ =>
      mkDataset false input
        [issue c "schema" "string" "type" input (Some "string")
           (stringify input) VUndefined]
  end.

(** The Validator's own error class. *)
Definition new_ValidatorError (found : list Value) : Value :=
  VObj [("name", VStr "ValiError");
        ("message", get_field "message" (hd VUndefined found));
        ("issues", VArr found)].

Definition isValiError (x : Value) : bool :=
  match x with
  | VObj fields =>
      match lookup_field "name" fields, lookup_field "issues" fields with
      | VStr name, VArr _ => String.eqb name "ValiError"
      | _, _ => false
      end
  | _ => false
  end.

Definition throwing (d : dataset) : Completion Value :=
  match ds_issues d with
  | [] => Normal (ds_value d)
  | found => Throw (new_ValidatorError found)
  end.

Definition safe (d : dataset) : SafeParseResult :=
  match ds_issues d with
  | [] => mkResult (ds_typed d) true (ds_value d) VUndefined
  | found => mkResult (ds_typed d) false (ds_value d) (VArr found)
  end.

Definition parse (s : schema) (input : Value) (c : option config)
    (w : World) : Completion Value * World :=
  match s with
  | percent => (throwing (run_percent c input), S w)
  | check_throws defect => (Throw defect, S w)
  end.

Definition safeParse (s : schema) (input : Value) (c : option config)
    (w : World) : Completion SafeParseResult * World :=
  match s with
  | percent => (Normal (safe (run_percent c input)), S w)
  | check_throws defect => (Throw defect, S w)
  end.

Definition parseAsync (s : schema + schema_async) (input : Value)
    (c : option config) (w : World) : Promise Value * World :=
  match s with
  | inl s' => let (r, w') := parse s' input c w in (promise_of r, w')
  | inr percent_async => (promise_of (throwing (run_percent c input)), S w)
  | inr (check_throws_async defect) => (Rejected defect, S w)
  | inr check_stalls => (Pending, S w)
  end.

Definition safeParseAsync (s : schema + schema_async) (input : Value)
    (c : option config) (w : World) : Promise SafeParseResult * World :=
  match s with
  | inl s' => let (r, w') := safeParse s' input c w in (promise_of r, w')
  | inr percent_async => (Fulfilled (safe (run_percent c input)), S w)
  | inr (check_throws_async defect) => (Rejected defect, S w)
  | inr check_stalls => (Pending, S w)
  end.

Definition validator : Validator World :=
  mkValidator parse parseAsync safeParse safeParseAsync isValiError.

(** The world before any validation, with no object allocated yet. *)
Definition start : State World := mkState 0 0.

(** The issue of scenario 2. *)
Definition not_a_string : Value :=
  VObj [("kind", VStr "schema");
        ("type", VStr "string");
        ("input", VNum 100);
        ("expected", VStr "string");
        ("received", VStr "100");
        ("message", VStr "Invalid type: Expected string but received 100");
        ("requirement", VUndefined);
        ("path", VUndefined);
        ("issues", VUndefined);
        ("lang", VUndefined);
        ("abortEarly", VUndefined);
        ("abortPipeEarly", VUndefined)].

End Fixture.

(** ** Vocabulary of the statements *)

Section Vocabulary.

Context {World : Type} (v : Validator World).

(** The error mapper shared by [parse] and [parseAsync]. *)
Definition wrap_cause (cause : Value) : JS World Value :=
  Index.new_ValiError (if v_isValiError v cause then cause else cause).

(** The state after a call that left the world in [w]. *)
Definition after (st : State World) (w : World) : State World :=
  mkState w (next_oid st).

(** The same, with one object allocated since. *)
Definition after_new (st : State World) (w : World) : State World :=
  mkState w (S (next_oid st)).

(** The failure [parse] and [parseAsync] build around a cause when
    executed from [st]. *)
Definition wrapped (st : State World) (cause : Value) : Value :=
  VTagged (next_oid st) "ValiError" [("cause", cause)].

(** How a computation ends once the result record is known. *)
Definition relay (r : SafeParseResult) : Exit :=
  if success r then ExitSucceed (output r) else ExitFail (issues r).

End Vocabulary.

(** A call that only builds a computation: it returns one, the same in
    every state, throws nothing and leaves the state as it found it. *)
Definition inert {World : Type} (build : JS World (Effect World)) : Prop :=
  exists eff, forall st, build st = (Normal eff, st).

(** The result record of scenario 2. *)
Definition not_a_string_result : SafeParseResult :=
  mkResult false false (VNum 100) (VArr [Fixture.not_a_string]).

(** ** What the adapter expects of a Validator *)

Section Contract.

Context {World : Type} (v : Validator World).

(** The throwing and the non-throwing entry point are two views of one
    validation run: where the second reports success, the first returns
    the same output and leaves the same world. *)
Definition throwing_returns_safe_output : Prop :=
  forall schema input config w r w',
    v_safeParse v schema input config w = (Normal r, w') ->
    success r = true ->
    v_parse v schema input config w = (Normal (output r), w').

(** A result whose success flag is unset carries at least one issue. *)
Definition failing_result_has_issues : Prop :=
  (forall schema input config w r w',
      v_safeParse v schema input config w = (Normal r, w') ->
      success r = false ->
      exists first rest, issues r = VArr (first :: rest))
  /\
  (forall any input config w r w',
      v_safeParseAsync v any input config w = (Fulfilled r, w') ->
      success r = false ->
      exists first rest, issues r = VArr (first :: rest)).

(** On a schema without asynchronous logic an asynchronous entry point
    settles the way its synchronous counterpart completes. *)
Definition async_settles_as_sync : Prop :=
  forall schema input config w,
    v_parseAsync v (inl schema) input config w
    = (let (c, w') := v_parse v schema input config w in (promise_of c, w'))
    /\
    v_safeParseAsync v (inl schema) input config w
    = (let (c, w') := v_safeParse v schema input config w in (promise_of c, w')).

End Contract.

(** * Properties *)

(** ** The validator of the test suite on the scenarios *)

Example fixture_scenario_1 :
  Fixture.run_percent None (VStr "100") = Fixture.mkDataset true (VNum 100) [].
Proof. reflexivity. Qed.

Example fixture_scenario_2 :
  Fixture.run_percent None (VNum 100)
  = Fixture.mkDataset false (VNum 100) [Fixture.not_a_string].
Proof. reflexivity. Qed.

(** ** Reading a result record back *)

Lemma success_of_result (r : SafeParseResult) :
  truthy (get_field "success" (result_value r)) = success r.
Proof. reflexivity. Qed.

Lemma output_of_result (r : SafeParseResult) :
  get_field "output" (result_value r) = output r.
Proof. reflexivity. Qed.

Lemma issues_of_result (r : SafeParseResult) :
  get_field "issues" (result_value r) = issues r.
Proof. reflexivity. Qed.

(** What the body shared by [safeParse] and [safeParseAsync] builds from a
    result record. *)
Lemma branch_on_result {World : Type} (r : SafeParseResult) (st : State World) :
  (if truthy (get_field "success" (result_value r))
   then Effect_succeed (get_field "output" (result_value r))
   else Effect_fail (get_field "issues" (result_value r))) st
  = (Normal (if success r then Succeed (output r) else Fail (issues r)), st).
Proof.
  rewrite success_of_result, output_of_result, issues_of_result.
  now destruct (success r).
Qed.

(** ** Construction *)

Section Construction.

Context {World : Type} (v : Validator World).

Lemma wrap_cause_spec (cause : Value) (st : State World) :
  wrap_cause v cause st
  = (Normal (VTagged (next_oid st) "ValiError" [("cause", cause)]),
     mkState (world st) (S (next_oid st))).
Proof. unfold wrap_cause. now destruct (v_isValiError v cause). Qed.

(** Downstream code tells the failure by its tag and reads the cause back. *)
Lemma wrapped_fields (cause : Value) (st : State World) :
  get_field "_tag" (wrapped st cause) = VStr "ValiError"
  /\ get_field "cause" (wrapped st cause) = cause.
Proof. split; reflexivity. Qed.

Lemma fail_with_wrap_cause (cause : Value) (st : State World) :
  fail_with (wrap_cause v) cause st
  = (ExitFail (VTagged (next_oid st) "ValiError" [("cause", cause)]),
     mkState (world st) (S (next_oid st))).
Proof. unfold fail_with. now rewrite wrap_cause_spec. Qed.

(** Running a computation built by a constructor that returns at once. *)
Lemma execute_ret (eff : Effect World) (st : State World) :
  execute (ret eff) st = (let (x, st') := run eff st in (Normal x, st')).
Proof. reflexivity. Qed.

End Construction.

(** ** Execution, one adapter at a time *)

Section Execution.

Context {World : Type} (v : Validator World).

Implicit Types (schema : Schema v) (any : Schema v + SchemaAsync v)
  (input : Value) (config : option (Config v)) (st : State World).

Lemma execute_parse schema input config st :
  execute (Index.parse v schema input config) st
  = match v_parse v schema input config (world st) with
    | (Normal a, w) => (Normal (ExitSucceed a), after st w)
    | (Throw e, w) => (Normal (ExitFail (wrapped st e)), after_new st w)
    end.
Proof.
  unfold Index.parse, Effect_try. rewrite execute_ret. cbn [run try catch].
  unfold call_throwing.
  destruct (v_parse v schema input config (world st)) as [[a | e] w];
    [reflexivity |].
  change (fun cause => Index.new_ValiError _) with (wrap_cause v).
  now rewrite fail_with_wrap_cause.
Qed.

Lemma execute_index_parseAsync any input config st :
  execute (Index.parseAsync v any input config) st
  = match v_safeParseAsync v any input config (world st) with
    | (Fulfilled r, w) => (Normal (ExitSucceed (result_value r)), after st w)
    | (Rejected e, w) => (Normal (ExitFail (wrapped st e)), after_new st w)
    | (Pending, w) => (Normal ExitNever, after st w)
    end.
Proof.
  unfold Index.parseAsync, Effect_tryPromise. rewrite execute_ret.
  cbn [run try catch]. unfold call_out, as_object_promise.
  destruct (v_safeParseAsync v any input config (world st)) as [[r | e |] w];
    cbn [promise_map]; try reflexivity.
  change (fun cause => Index.new_ValiError _) with (wrap_cause v).
  now rewrite fail_with_wrap_cause.
Qed.

Lemma execute_parse_ts_parseAsync any input config st :
  execute (ParseTs.parseAsync v any input config) st
  = match v_parseAsync v any input config (world st) with
    | (Fulfilled a, w) => (Normal (ExitSucceed a), after st w)
    | (Rejected e, w) => (Normal (ExitFail (wrapped st e)), after_new st w)
    | (Pending, w) => (Normal ExitNever, after st w)
    end.
Proof.
  unfold ParseTs.parseAsync, Effect_tryPromise. rewrite execute_ret.
  cbn [run try catch]. unfold call_out.
  destruct (v_parseAsync v any input config (world st)) as [[a | e |] w];
    try reflexivity.
  change (fun cause => ParseTs.new_ValiError _) with (wrap_cause v).
  now rewrite fail_with_wrap_cause.
Qed.

Lemma execute_safeParse schema input config st :
  execute (Index.safeParse v schema input config) st
  = match v_safeParse v schema input config (world st) with
    | (Normal r, w) => (Normal (relay r), after st w)
    | (Throw d, w) => (Normal (ExitDie d), after st w)
    end.
Proof.
  unfold Index.safeParse, Effect_suspend. rewrite execute_ret.
  cbn [run]. unfold bind, call_throwing, as_object.
  destruct (v_safeParse v schema input config (world st)) as [[r | d] w];
    [| reflexivity].
  rewrite branch_on_result. unfold relay, after.
  now destruct (success r).
Qed.

Lemma execute_safeParseAsync any input config st :
  execute (Index.safeParseAsync v any input config) st
  = match v_safeParseAsync v any input config (world st) with
    | (Fulfilled r, w) => (Normal (relay r), after st w)
    | (Rejected d, w) => (Normal (ExitDie d), after st w)
    | (Pending, w) => (Normal ExitNever, after st w)
    end.
Proof.
  unfold Index.safeParseAsync, Effect_promise, Effect_flatMap, execute, bind, ret.
  cbn [run]. unfold call_out, as_object_promise.
  destruct (v_safeParseAsync v any input config (world st)) as [[r | d |] w];
    cbn [promise_map]; try reflexivity.
  rewrite branch_on_result. unfold relay, after.
  now destruct (success r).
Qed.

End Execution.

(** The validator of the test suite honours all three. *)

Lemma fixture_throwing_returns_safe_output :
  throwing_returns_safe_output Fixture.validator.
Proof.
  intros schema input config w r w' Hsafe Hok.
  destruct schema as [| defect]; cbn in Hsafe |- *; [| discriminate].
  injection Hsafe as <- <-.
  unfold Fixture.safe, Fixture.throwing in *.
  destruct (Fixture.ds_issues (Fixture.run_percent config input)).
  - reflexivity.
  - discriminate.
Qed.

Lemma fixture_safe_has_issues (d : Fixture.dataset) :
  success (Fixture.safe d) = false ->
  exists first rest, issues (Fixture.safe d) = VArr (first :: rest).
Proof.
  unfold Fixture.safe.
  destruct (Fixture.ds_issues d) as [| first rest]; cbn.
  - discriminate.
  - intros _. now exists first, rest.
Qed.

Lemma fixture_failing_result_has_issues :
  failing_result_has_issues Fixture.validator.
Proof.
  split.
  - intros [| defect] input config w r w' Hsafe; cbn in Hsafe;
      [| discriminate].
    injection Hsafe as <- <-. apply fixture_safe_has_issues.
  - intros [[| defect] | [| defect |]] input config w r w' Hsafe;
      cbn in Hsafe; try discriminate;
      injection Hsafe as <- <-; apply fixture_safe_has_issues.
Qed.

Lemma fixture_async_settles_as_sync :
  async_settles_as_sync Fixture.validator.
Proof. intros schema input config w. split; reflexivity. Qed.

(** C3.  Executing the computation returned by [parse] calls the
    Validator's throwing parse entry point at once, in the world of the
    execution.  If the call returns a value, the computation succeeds with
    that value.  If it throws, the computation fails with a [ValiError]
    instance allocated during the execution (its identity is the next free
    one and exactly one object is allocated), tagged "ValiError", whose
    [cause] is exactly the thrown value. *)
Theorem parse_wraps_what_the_validator_throws
    {World : Type} (v : Validator World) (schema : Schema v) (input : Value)
    (config : option (Config v)) (st : State World) :
  (forall a w,
      v_parse v schema input config (world st) = (Normal a, w) ->
      execute (Index.parse v schema input config) st
      = (Normal (ExitSucceed a), mkState w (next_oid st)))
  /\
  (forall thrown w,
      v_parse v schema input config (world st) = (Throw thrown, w) ->
      execute (Index.parse v schema input config) st
      = (Normal (ExitFail (VTagged (next_oid st) "ValiError" [("cause", thrown)])),
         mkState w (S (next_oid st)))).
Proof.
  split; intros x w Hcall; rewrite execute_parse, Hcall; reflexivity.
Qed.

Lemma parse_wraps_what_the_validator_throws_witness :
  execute (Index.parse Fixture.validator Fixture.percent (VStr "100") None)
    Fixture.start
  = (Normal (ExitSucceed (VNum 100)), mkState 1 0)
  /\
  execute (Index.parse Fixture.validator Fixture.percent (VNum 100) None)
    Fixture.start
  = (Normal (ExitFail (VTagged 0 "ValiError"
       [("cause", Fixture.new_ValidatorError [Fixture.not_a_string])])),
     mkState 1 1).
Proof.
  split.
  - apply (proj1 (parse_wraps_what_the_validator_throws
                    Fixture.validator Fixture.percent (VStr "100") None
                    Fixture.start)).
    reflexivity.
  - apply (proj2 (parse_wraps_what_the_validator_throws
                    Fixture.validator Fixture.percent (VNum 100) None
                    Fixture.start)).
    reflexivity.
Defined.

(** C4.  Executing the computation returned by [safeParse] calls the
    Validator's non-throwing parse entry point; with the success flag set
    the computation succeeds with the result's output, otherwise it fails
    with the result's issue sequence itself: the failure is that very
    value and no object is allocated on the way. *)
Theorem safeParse_relays_the_result
    {World : Type} (v : Validator World) (schema : Schema v) (input : Value)
    (config : option (Config v)) (st : State World)
    (r : SafeParseResult) (w : World) :
  v_safeParse v schema input config (world st) = (Normal r, w) ->
  execute (Index.safeParse v schema input config) st
  = (Normal (if success r then ExitSucceed (output r) else ExitFail (issues r)),
     mkState w (next_oid st)).
Proof.
  intros Hcall. rewrite execute_safeParse, Hcall. reflexivity.
Qed.

Lemma safeParse_relays_the_result_witness :
  v_safeParse Fixture.validator Fixture.percent (VNum 100) None
    (world Fixture.start)
  = (Normal not_a_string_result, 1)
  /\
  execute (Index.safeParse Fixture.validator Fixture.percent (VNum 100) None)
    Fixture.start
  = (Normal (ExitFail (VArr [Fixture.not_a_string])), mkState 1 0).
Proof.
  split; [reflexivity |].
  apply (@safeParse_relays_the_result Fixture.World Fixture.validator
           Fixture.percent (VNum 100) None Fixture.start
           not_a_string_result 1).
  reflexivity.
Defined.

(** C5.  Calling any of the four functions only builds a computation: the
    call returns normally in every state, with the world and the allocator
    untouched, so no validation has run.  The world changes when the
    computation is executed, and then it is the world one call of the
    Validator's entry point leaves. *)
Theorem construction_runs_no_validation
    {World : Type} (v : Validator World) (schema : Schema v)
    (any : Schema v + SchemaAsync v) (input : Value)
    (config : option (Config v)) :
  (inert (Index.parse v schema input config)
   /\ inert (Index.parseAsync v any input config)
   /\ inert (Index.safeParse v schema input config)
   /\ inert (Index.safeParseAsync v any input config))
  /\
  (forall st,
      world (snd (execute (Index.parse v schema input config) st))
      = snd (v_parse v schema input config (world st))
      /\ world (snd (execute (Index.parseAsync v any input config) st))
         = snd (v_safeParseAsync v any input config (world st))
      /\ world (snd (execute (Index.safeParse v schema input config) st))
         = snd (v_safeParse v schema input config (world st))
      /\ world (snd (execute (Index.safeParseAsync v any input config) st))
         = snd (v_safeParseAsync v any input config (world st))).
Proof.
  split.
  - repeat split; eexists; intros st; reflexivity.
  - intros st.
    rewrite execute_parse, execute_index_parseAsync, execute_safeParse,
      execute_safeParseAsync.
    repeat split.
    + now destruct (v_parse v schema input config (world st)) as [[a | e] w].
    + now destruct (v_safeParseAsync v any input config (world st))
        as [[r | e |] w].
    + now destruct (v_safeParse v schema input config (world st))
        as [[r | e] w].
    + now destruct (v_safeParseAsync v any input config (world st))
        as [[r | e |] w].
Qed.

(** On the validator of the test suite, whose world counts the validation
    runs: none after building [parse(schema, 100)], one after executing it. *)
Example no_run_before_execution :
  world (snd (Index.parse Fixture.validator Fixture.percent (VNum 100) None
                Fixture.start)) = 0
  /\ world (snd (execute
                   (Index.parse Fixture.validator Fixture.percent (VNum 100) None)
                   Fixture.start)) = 1.
Proof. split; reflexivity. Qed.

(** C6.  A thrown value the Validator's recognized-error predicate rejects
    is wrapped all the same: the computation of [parse] (when the throwing
    entry point throws it) and of [parseAsync] (when the awaited promise
    rejects with it) fails with a [ValiError] instance whose [cause] is the
    raw value, unchanged. *)
Theorem unrecognized_thrown_value_is_wrapped_untouched
    {World : Type} (v : Validator World) (schema : Schema v)
    (any : Schema v + SchemaAsync v) (input : Value)
    (config : option (Config v)) (st : State World)
    (thrown : Value) (w : World) :
  v_isValiError v thrown = false ->
  (v_parse v schema input config (world st) = (Throw thrown, w) ->
   execute (Index.parse v schema input config) st
   = (Normal (ExitFail (VTagged (next_oid st) "ValiError" [("cause", thrown)])),
      mkState w (S (next_oid st))))
  /\
  (v_safeParseAsync v any input config (world st) = (Rejected thrown, w) ->
   execute (Index.parseAsync v any input config) st
   = (Normal (ExitFail (VTagged (next_oid st) "ValiError" [("cause", thrown)])),
      mkState w (S (next_oid st))))
  /\
  (v_parseAsync v any input config (world st) = (Rejected thrown, w) ->
   execute (ParseTs.parseAsync v any input config) st
   = (Normal (ExitFail (VTagged (next_oid st) "ValiError" [("cause", thrown)])),
      mkState w (S (next_oid st)))).
Proof.
  intros _. split; [| split]; intros Hcall.
  - rewrite execute_parse, Hcall. reflexivity.
  - rewrite execute_index_parseAsync, Hcall. reflexivity.
  - rewrite execute_parse_ts_parseAsync, Hcall. reflexivity.
Qed.

Lemma unrecognized_thrown_value_is_wrapped_untouched_witness :
  v_isValiError Fixture.validator (VStr "boom") = false
  /\
  execute (Index.parse Fixture.validator
             (Fixture.check_throws (VStr "boom")) (VStr "100") None)
    Fixture.start
  = (Normal (ExitFail (VTagged 0 "ValiError" [("cause", VStr "boom")])),
     mkState 1 1)
  /\
  execute (Index.parseAsync Fixture.validator
             (inr (Fixture.check_throws_async (VStr "boom"))) (VStr "100") None)
    Fixture.start
  = (Normal (ExitFail (VTagged 0 "ValiError" [("cause", VStr "boom")])),
     mkState 1 1)
  /\
  execute (ParseTs.parseAsync Fixture.validator
             (inr (Fixture.check_throws_async (VStr "boom"))) (VStr "100") None)
    Fixture.start
  = (Normal (ExitFail (VTagged 0 "ValiError" [("cause", VStr "boom")])),
     mkState 1 1).
Proof.
  pose proof (@unrecognized_thrown_value_is_wrapped_untouched
                Fixture.World Fixture.validator
                (Fixture.check_throws (VStr "boom"))
                (inr (Fixture.check_throws_async (VStr "boom")))
                (VStr "100") None Fixture.start (VStr "boom") 1
                eq_refl) as [Hparse [Hindex Hts]].
  split; [reflexivity |].
  split; [| split]; [apply Hparse | apply Hindex | apply Hts]; reflexivity.
Defined.

(** C7.  Where the Validator's non-throwing parse succeeds, the
    computations of [parse] and of [safeParse] both succeed when executed,
    with the same value: the output the Validator reported.  The Validator
    is taken to answer alike through its two entry points
    ([throwing_returns_safe_output]). *)
Theorem parse_and_safeParse_agree_on_success
    {World : Type} (v : Validator World) (schema : Schema v) (input : Value)
    (config : option (Config v)) (st : State World)
    (r : SafeParseResult) (w : World) :
  throwing_returns_safe_output v ->
  v_safeParse v schema input config (world st) = (Normal r, w) ->
  success r = true ->
  execute (Index.parse v schema input config) st
  = (Normal (ExitSucceed (output r)), mkState w (next_oid st))
  /\
  execute (Index.safeParse v schema input config) st
  = (Normal (ExitSucceed (output r)), mkState w (next_oid st)).
Proof.
  intros Hagree Hsafe Hok.
  pose proof (Hagree _ _ _ _ _ _ Hsafe Hok) as Hthrowing.
  split.
  - rewrite execute_parse, Hthrowing. reflexivity.
  - rewrite execute_safeParse, Hsafe. unfold relay. rewrite Hok. reflexivity.
Qed.

Lemma parse_and_safeParse_agree_on_success_witness :
  v_safeParse Fixture.validator Fixture.percent (VStr "100") None
    (world Fixture.start)
  = (Normal (mkResult true true (VNum 100) VUndefined), 1)
  /\
  execute (Index.parse Fixture.validator Fixture.percent (VStr "100") None)
    Fixture.start
  = (Normal (ExitSucceed (VNum 100)), mkState 1 0)
  /\
  execute (Index.safeParse Fixture.validator Fixture.percent (VStr "100") None)
    Fixture.start
  = (Normal (ExitSucceed (VNum 100)), mkState 1 0).
Proof.
  split; [reflexivity |].
  apply (@parse_and_safeParse_agree_on_success Fixture.World Fixture.validator
           Fixture.percent (VStr "100") None Fixture.start
           (mkResult true true (VNum 100) VUndefined) 1).
  - exact fixture_throwing_returns_safe_output.
  - reflexivity.
  - reflexivity.
Defined.

(** C8.  Whenever the computation of [safeParse] or of [safeParseAsync]
    fails, the failure is a sequence with at least one element, provided
    the Validator's non-throwing entry points return a non-empty issue
    sequence whenever the success flag is unset. *)
Theorem safeParse_failure_is_never_empty
    {World : Type} (v : Validator World) (schema : Schema v)
    (any : Schema v + SchemaAsync v) (input : Value)
    (config : option (Config v)) (st st' : State World) (failure : Value) :
  failing_result_has_issues v ->
  execute (Index.safeParse v schema input config) st
    = (Normal (ExitFail failure), st')
  \/ execute (Index.safeParseAsync v any input config) st
     = (Normal (ExitFail failure), st') ->
  exists first rest, failure = VArr (first :: rest).
Proof.
  intros [Hsync Hasync] [Hrun | Hrun].
  - rewrite execute_safeParse in Hrun.
    destruct (v_safeParse v schema input config (world st))
      as [[r | d] w] eqn:Hcall; [| discriminate].
    unfold relay in Hrun.
    destruct (success r) eqn:Hflag; [discriminate |].
    injection Hrun as <- _.
    exact (Hsync _ _ _ _ _ _ Hcall Hflag).
  - rewrite execute_safeParseAsync in Hrun.
    destruct (v_safeParseAsync v any input config (world st))
      as [[r | d |] w] eqn:Hcall; try discriminate.
    unfold relay in Hrun.
    destruct (success r) eqn:Hflag; [discriminate |].
    injection Hrun as <- _.
    exact (Hasync _ _ _ _ _ _ Hcall Hflag).
Qed.

Lemma safeParse_failure_is_never_empty_witness :
  execute (Index.safeParse Fixture.validator Fixture.percent (VNum 100) None)
    Fixture.start
  = (Normal (ExitFail (VArr [Fixture.not_a_string])), mkState 1 0)
  /\
  exists first rest, VArr [Fixture.not_a_string] = VArr (first :: rest).
Proof.
  split; [reflexivity |].
  apply (@safeParse_failure_is_never_empty Fixture.World Fixture.validator
           Fixture.percent (inl Fixture.percent) (VNum 100) None
           Fixture.start (mkState 1 0) (VArr [Fixture.not_a_string])).
  - exact fixture_failing_result_has_issues.
  - left. reflexivity.
Defined.

(** C10.  When the promise of the Validator's non-throwing asynchronous
    parse rejects, the computation of [safeParseAsync] does not fail in its
    error channel: it ends with the rejection reason as a defect, since
    [Effect.promise] maps no error. *)
Theorem safeParseAsync_rejection_is_a_defect
    {World : Type} (v : Validator World) (any : Schema v + SchemaAsync v)
    (input : Value) (config : option (Config v)) (st : State World)
    (reason : Value) (w : World) :
  v_safeParseAsync v any input config (world st) = (Rejected reason, w) ->
  execute (Index.safeParseAsync v any input config) st
  = (Normal (ExitDie reason), mkState w (next_oid st))
  /\
  forall issues st',
    execute (Index.safeParseAsync v any input config) st
    <> (Normal (ExitFail issues), st').
Proof.
  intros Hcall. rewrite execute_safeParseAsync, Hcall.
  split; [reflexivity | intros issues st'; discriminate].
Qed.

Lemma safeParseAsync_rejection_is_a_defect_witness :
  v_safeParseAsync Fixture.validator
    (inr (Fixture.check_throws_async (VStr "boom"))) (VStr "100") None
    (world Fixture.start)
  = (Rejected (VStr "boom"), 1)
  /\
  execute (Index.safeParseAsync Fixture.validator
             (inr (Fixture.check_throws_async (VStr "boom"))) (VStr "100") None)
    Fixture.start
  = (Normal (ExitDie (VStr "boom")), mkState 1 0).
Proof.
  split; [reflexivity |].
  apply (@safeParseAsync_rejection_is_a_defect Fixture.World Fixture.validator
           (inr (Fixture.check_throws_async (VStr "boom"))) (VStr "100") None
           Fixture.start (VStr "boom") 1).
  reflexivity.
Defined.

(** ** [parseAsync]: the two definitions *)

Section ParseAsync.

Context {World : Type} (v : Validator World).

(** The definition embedded after the test suite awaits the asynchronous
    throwing entry point: a fulfilled promise gives a success with its
    value, a rejected one a failure with a [ValiError] instance around
    the rejection reason. *)
Lemma parse_ts_parseAsync_awaits_throwing_entry_point
    (any : Schema v + SchemaAsync v) (input : Value)
    (config : option (Config v)) (st : State World) :
  (forall a w,
      v_parseAsync v any input config (world st) = (Fulfilled a, w) ->
      execute (ParseTs.parseAsync v any input config) st
      = (Normal (ExitSucceed a), mkState w (next_oid st)))
  /\
  (forall reason w,
      v_parseAsync v any input config (world st) = (Rejected reason, w) ->
      execute (ParseTs.parseAsync v any input config) st
      = (Normal (ExitFail (VTagged (next_oid st) "ValiError" [("cause", reason)])),
         mkState w (S (next_oid st)))).
Proof.
  split; intros x w Hcall;
    rewrite execute_parse_ts_parseAsync, Hcall; reflexivity.
Qed.

(** The definition of src/index.ts awaits the non-throwing entry point
    instead: once that promise is fulfilled the computation succeeds with
    the result record, whatever its success flag says. *)
Lemma index_parseAsync_succeeds_with_the_record
    (any : Schema v + SchemaAsync v) (input : Value)
    (config : option (Config v)) (st : State World)
    (r : SafeParseResult) (w : World) :
  v_safeParseAsync v any input config (world st) = (Fulfilled r, w) ->
  execute (Index.parseAsync v any input config) st
  = (Normal (ExitSucceed (result_value r)), mkState w (next_oid st)).
Proof.
  intros Hcall. now rewrite execute_index_parseAsync, Hcall.
Qed.

(** On a schema without asynchronous logic, and a Validator whose
    asynchronous entry points settle as the synchronous ones complete, the
    embedded [parseAsync] ends as [parse] does and [safeParseAsync] as
    [safeParse] does. *)
Lemma parse_ts_parseAsync_matches_parse
    (schema : Schema v) (input : Value) (config : option (Config v))
    (st : State World) :
  async_settles_as_sync v ->
  execute (ParseTs.parseAsync v (inl schema) input config) st
  = execute (ParseTs.parse v schema input config) st.
Proof.
  intros Hsame. destruct (Hsame schema input config (world st)) as [Hthrowing _].
  change (ParseTs.parse v schema input config)
    with (Index.parse v schema input config).
  rewrite execute_parse_ts_parseAsync, execute_parse, Hthrowing.
  now destruct (v_parse v schema input config (world st)) as [[a | e] w].
Qed.

Lemma safeParseAsync_matches_safeParse
    (schema : Schema v) (input : Value) (config : option (Config v))
    (st : State World) :
  async_settles_as_sync v ->
  execute (Index.safeParseAsync v (inl schema) input config) st
  = execute (Index.safeParse v schema input config) st.
Proof.
  intros Hsame. destruct (Hsame schema input config (world st)) as [_ Hsafe].
  rewrite execute_safeParseAsync, execute_safeParse, Hsafe.
  now destruct (v_safeParse v schema input config (world st)) as [[r | d] w].
Qed.

(** Three of the four functions are the same in both modules. *)
Lemma both_modules_share_three_definitions :
  @Index.parse World v = @ParseTs.parse World v
  /\ @Index.safeParse World v = @ParseTs.safeParse World v
  /\ @Index.safeParseAsync World v = @ParseTs.safeParseAsync World v.
Proof. repeat split. Qed.

End ParseAsync.

(** C1.  On the schema of the test suite and the input [100] the
    Validator's asynchronous throwing entry point rejects with its
    validation error, yet the computation of src/index.ts's [parseAsync]
    succeeds, with the result record of the non-throwing entry point. *)
Theorem index_parseAsync_succeeds_where_validation_fails :
  v_parseAsync Fixture.validator (inl Fixture.percent) (VNum 100) None
    (world Fixture.start)
  = (Rejected (Fixture.new_ValidatorError [Fixture.not_a_string]), 1)
  /\
  execute (Index.parseAsync Fixture.validator (inl Fixture.percent)
             (VNum 100) None) Fixture.start
  = (Normal (ExitSucceed (result_value not_a_string_result)), mkState 1 0).
Proof.
  split.
  - reflexivity.
  - apply index_parseAsync_succeeds_with_the_record. reflexivity.
Qed.

(** C2.  On the schema of the test suite, which has no asynchronous logic,
    and the input [100], executing src/index.ts's [parseAsync] and
    executing [parse] end differently: the first succeeds with a result
    record, the second fails with a [ValiError] instance.  The Validator
    used settles its asynchronous entry points as the synchronous ones
    complete. *)
Theorem index_parseAsync_differs_from_parse :
  async_settles_as_sync Fixture.validator
  /\
  execute (Index.parseAsync Fixture.validator (inl Fixture.percent)
             (VNum 100) None) Fixture.start
  <> execute (Index.parse Fixture.validator Fixture.percent (VNum 100) None)
       Fixture.start.
Proof.
  split.
  - exact fixture_async_settles_as_sync.
  - rewrite execute_index_parseAsync, execute_parse. cbn. discriminate.
Qed.

(** C9.  The [parseAsync] of src/index.ts and the [parseAsync] of the
    module embedded after the test suite do not return computations with
    the same result: on the schema of the test suite the first succeeds
    with a result record both for the input [100], where the second fails
    with a [ValiError] instance, and for the input ["100"], where the
    second succeeds with the number [100]. *)
Theorem index_parseAsync_differs_from_embedded_parseAsync :
  execute (Index.parseAsync Fixture.validator (inl Fixture.percent)
             (VNum 100) None) Fixture.start
  <> execute (ParseTs.parseAsync Fixture.validator (inl Fixture.percent)
                (VNum 100) None) Fixture.start
  /\
  execute (Index.parseAsync Fixture.validator (inl Fixture.percent)
             (VStr "100") None) Fixture.start
  <> execute (ParseTs.parseAsync Fixture.validator (inl Fixture.percent)
                (VStr "100") None) Fixture.start.
Proof.
  split; rewrite execute_index_parseAsync, execute_parse_ts_parseAsync;
    cbn; discriminate.
Qed.

(** * Further properties of the code *)

(** X1.  The [parseAsync] of the module embedded after the test suite ends
    exactly as the promise of the Validator's asynchronous throwing entry
    point settles: a success carries the value the promise was fulfilled
    with, a failure is tagged "ValiError" and its [cause] reads back the
    rejection reason, and the computation never completes only when the
    promise stays pending.  It never ends with a defect. *)
Theorem embedded_parseAsync_ends_as_the_promise_settles
    {World : Type} (v : Validator World) (any : Schema v + SchemaAsync v)
    (input : Value) (config : option (Config v)) (st : State World) :
  exists x st',
    execute (ParseTs.parseAsync v any input config) st = (Normal x, st')
    /\ match x with
       | ExitSucceed a =>
           v_parseAsync v any input config (world st) = (Fulfilled a, world st')
       | ExitFail e =>
           get_field "_tag" e = VStr "ValiError"
           /\ v_parseAsync v any input config (world st)
              = (Rejected (get_field "cause" e), world st')
       | ExitNever =>
           v_parseAsync v any input config (world st) = (Pending, world st')
       | ExitDie _ => False
       end.
Proof.
  rewrite execute_parse_ts_parseAsync.
  destruct (v_parseAsync v any input config (world st)) as [[a | reason |] w];
    do 2 eexists; (split; [reflexivity |]); cbn; auto.
Qed.

(** X2.  In the module embedded after the test suite, on a schema without
    asynchronous logic and a Validator whose asynchronous entry points
    settle as the synchronous ones complete, executing [parseAsync] ends as
    executing [parse] does and executing [safeParseAsync] as executing
    [safeParse] does, from the same state: same exit, same world, same
    allocations. *)
Theorem embedded_async_variants_match_sync_ones
    {World : Type} (v : Validator World) (schema : Schema v) (input : Value)
    (config : option (Config v)) (st : State World) :
  async_settles_as_sync v ->
  execute (ParseTs.parseAsync v (inl schema) input config) st
  = execute (ParseTs.parse v schema input config) st
  /\
  execute (ParseTs.safeParseAsync v (inl schema) input config) st
  = execute (ParseTs.safeParse v schema input config) st.
Proof.
  intros Hsame. split.
  - now apply parse_ts_parseAsync_matches_parse.
  - change (ParseTs.safeParseAsync v (inl schema) input config)
      with (Index.safeParseAsync v (inl schema) input config).
    change (ParseTs.safeParse v schema input config)
      with (Index.safeParse v schema input config).
    now apply safeParseAsync_matches_safeParse.
Qed.

Lemma embedded_async_variants_match_sync_ones_witness :
  execute (ParseTs.parseAsync Fixture.validator (inl Fixture.percent)
             (VNum 100) None) Fixture.start
  = execute (ParseTs.parse Fixture.validator Fixture.percent (VNum 100) None)
      Fixture.start
  /\
  execute (ParseTs.safeParseAsync Fixture.validator (inl Fixture.percent)
             (VNum 100) None) Fixture.start
  = execute (ParseTs.safeParse Fixture.validator Fixture.percent (VNum 100) None)
      Fixture.start.
Proof.
  apply (@embedded_async_variants_match_sync_ones Fixture.World
           Fixture.validator Fixture.percent (VNum 100) None Fixture.start).
  exact fixture_async_settles_as_sync.
Defined.

(** X3.  Once the promise of the Validator's non-throwing asynchronous
    entry point is fulfilled, the computation of [safeParseAsync] succeeds
    with the result's output when the success flag is set and otherwise
    fails with the result's issue sequence itself, nothing being allocated. *)
Theorem safeParseAsync_relays_the_fulfilled_result
    {World : Type} (v : Validator World) (any : Schema v + SchemaAsync v)
    (input : Value) (config : option (Config v)) (st : State World)
    (r : SafeParseResult) (w : World) :
  v_safeParseAsync v any input config (world st) = (Fulfilled r, w) ->
  execute (Index.safeParseAsync v any input config) st
  = (Normal (if success r then ExitSucceed (output r) else ExitFail (issues r)),
     mkState w (next_oid st)).
Proof.
  intros Hcall. rewrite execute_safeParseAsync, Hcall. reflexivity.
Qed.

Lemma safeParseAsync_relays_the_fulfilled_result_witness :
  v_safeParseAsync Fixture.validator (inr Fixture.percent_async) (VNum 100)
    None (world Fixture.start)
  = (Fulfilled not_a_string_result, 1)
  /\
  execute (Index.safeParseAsync Fixture.validator (inr Fixture.percent_async)
             (VNum 100) None) Fixture.start
  = (Normal (ExitFail (VArr [Fixture.not_a_string])), mkState 1 0).
Proof.
  split; [reflexivity |].
  apply (@safeParseAsync_relays_the_fulfilled_result Fixture.World
           Fixture.validator (inr Fixture.percent_async) (VNum 100) None
           Fixture.start not_a_string_result 1).
  reflexivity.
Defined.

(** X4.  [safeParse] catches nothing: when the Validator's non-throwing
    entry point throws all the same (a check that throws), the computation
    ends with the thrown value as a defect, not as a failure in its issue
    channel, and nothing is allocated. *)
Theorem safeParse_throw_is_a_defect
    {World : Type} (v : Validator World) (schema : Schema v) (input : Value)
    (config : option (Config v)) (st : State World)
    (thrown : Value) (w : World) :
  v_safeParse v schema input config (world st) = (Throw thrown, w) ->
  execute (Index.safeParse v schema input config) st
  = (Normal (ExitDie thrown), mkState w (next_oid st))
  /\
  forall failure st',
    execute (Index.safeParse v schema input config) st
    <> (Normal (ExitFail failure), st').
Proof.
  intros Hcall. rewrite execute_safeParse, Hcall.
  split; [reflexivity | intros failure st'; discriminate].
Qed.

Lemma safeParse_throw_is_a_defect_witness :
  v_safeParse Fixture.validator (Fixture.check_throws (VStr "boom"))
    (VStr "100") None (world Fixture.start)
  = (Throw (VStr "boom"), 1)
  /\
  execute (Index.safeParse Fixture.validator
             (Fixture.check_throws (VStr "boom")) (VStr "100") None)
    Fixture.start
  = (Normal (ExitDie (VStr "boom")), mkState 1 0).
Proof.
  split; [reflexivity |].
  apply (@safeParse_throw_is_a_defect Fixture.World Fixture.validator
           (Fixture.check_throws (VStr "boom")) (VStr "100") None
           Fixture.start (VStr "boom") 1).
  reflexivity.
Defined.

(** X5.  Every execution of the computation of [parse] ends in a success
    or in a failure, never in a defect and never without completing.  The
    outcome tells what the Validator's throwing entry point did: a success
    carries the value it returned, a failure is tagged "ValiError" and its
    [cause] reads back the value it threw. *)
Theorem parse_ends_in_success_or_tagged_failure
    {World : Type} (v : Validator World) (schema : Schema v) (input : Value)
    (config : option (Config v)) (st : State World) :
  exists x st',
    execute (Index.parse v schema input config) st = (Normal x, st')
    /\ match x with
       | ExitSucceed a =>
           v_parse v schema input config (world st) = (Normal a, world st')
       | ExitFail e =>
           get_field "_tag" e = VStr "ValiError"
           /\ v_parse v schema input config (world st)
              = (Throw (get_field "cause" e), world st')
       | ExitDie _ | ExitNever => False
       end.
Proof.
  rewrite execute_parse.
  destruct (v_parse v schema input config (world st)) as [[a | thrown] w].
  - exists (ExitSucceed a), (after st w). split; reflexivity.
  - exists (ExitFail (wrapped st thrown)), (after_new st w).
    split; [reflexivity |]. split; reflexivity.
Qed.

(** X6.  A computation built once by [parse] keeps no result: each
    execution calls the Validator's throwing entry point again, in the world
    of that execution, and a failing execution allocates its own
    [ValiError] instance.  Two failing executions in a row give two
    distinct objects, each with the value thrown in its own run as [cause]. *)
Theorem parse_computation_runs_anew_each_time
    {World : Type} (v : Validator World) (schema : Schema v) (input : Value)
    (config : option (Config v)) (eff : Effect World)
    (st0 st st1 st2 : State World) (e1 e2 : Value) :
  Index.parse v schema input config st0 = (Normal eff, st0) ->
  run eff st = (ExitFail e1, st1) ->
  run eff st1 = (ExitFail e2, st2) ->
  e1 <> e2
  /\ v_parse v schema input config (world st)
     = (Throw (get_field "cause" e1), world st1)
  /\ v_parse v schema input config (world st1)
     = (Throw (get_field "cause" e2), world st2).
Proof.
  intros Hbuilt Hfirst Hsecond.
  injection Hbuilt as <-.
  assert (Hexec : forall s e s',
             run (Try (call_throwing (v_parse v schema input config))
                      (fun cause =>
                         Index.new_ValiError
                           (if v_isValiError v cause then cause else cause))) s
             = (ExitFail e, s') ->
             exists thrown w,
               v_parse v schema input config (world s) = (Throw thrown, w)
               /\ e = wrapped s thrown /\ s' = after_new s w).
  { intros s e s' Hrun.
    pose proof (execute_parse v schema input config s) as Heq.
    unfold Index.parse, Effect_try in Heq. rewrite execute_ret in Heq.
    cbn [try catch] in Heq. rewrite Hrun in Heq.
    destruct (v_parse v schema input config (world s)) as [[a | thrown] w];
      [discriminate |].
    injection Heq as -> ->. now exists thrown, w. }
  destruct (Hexec _ _ _ Hfirst) as (t1 & w1 & Hcall1 & -> & ->).
  destruct (Hexec _ _ _ Hsecond) as (t2 & w2 & Hcall2 & -> & ->).
  split; [| split].
  - unfold wrapped, after_new. cbn [next_oid].
    intros Heq. injection Heq as Hoid _. lia.
  - exact Hcall1.
  - exact Hcall2.
Qed.

Lemma parse_computation_runs_anew_each_time_witness :
  VTagged 0 "ValiError"
    [("cause", Fixture.new_ValidatorError [Fixture.not_a_string])]
  <> VTagged 1 "ValiError"
       [("cause", Fixture.new_ValidatorError [Fixture.not_a_string])]
  /\ v_parse Fixture.validator Fixture.percent (VNum 100) None 0
     = (Throw (Fixture.new_ValidatorError [Fixture.not_a_string]), 1)
  /\ v_parse Fixture.validator Fixture.percent (VNum 100) None 1
     = (Throw (Fixture.new_ValidatorError [Fixture.not_a_string]), 2).
Proof.
  apply (@parse_computation_runs_anew_each_time Fixture.World
           Fixture.validator Fixture.percent (VNum 100) None
           (Try (call_throwing
                   (v_parse Fixture.validator Fixture.percent (VNum 100) None))
                (fun cause =>
                   Index.new_ValiError
                     (if v_isValiError Fixture.validator cause
                      then cause else cause)))
           Fixture.start Fixture.start (mkState 1 1) (mkState 2 2)
           (VTagged 0 "ValiError"
              [("cause", Fixture.new_ValidatorError [Fixture.not_a_string])])
           (VTagged 1 "ValiError"
              [("cause", Fixture.new_ValidatorError [Fixture.not_a_string])])).
  - reflexivity.
  - reflexivity.
  - reflexivity.
Defined.

